(** * The command-line entry point of [oj]: [onlinejudge_command/main.py]

    A shallow embedding of [get_parser], [run_program] and [main], and the
    properties of the dispatcher, of the logging set-up and of the
    error-to-exit-code policy.

    The program is effectful: it prints, logs, queries the update checker,
    calls a subcommand and leaves through [sys.exit] or through an exception.
    A computation is therefore a value of [Py A]: the events it performed, in
    order, and either its result or the exception that left it. *)

From Stdlib Require Import Bool List String Ascii ZArith Lia.
Import ListNotations.

Open Scope string_scope.
Open Scope list_scope.

(** ** Strings, as Python compares and searches them *)

(** [s.startswith(p)]. *)
Fixpoint startswith (s p : string) {struct p} : bool :=
  match p, s with
  | EmptyString, _ => true
  | String _ _, EmptyString => false
  | String a p', String b s' => Ascii.eqb a b && startswith s' p'
  end.

(** [sub in s] on two [str]. *)
Fixpoint contains (s sub : string) : bool :=
  startswith s sub ||
  match s with
  | EmptyString => false
  | String _ s' => contains s' sub
  end.

(** The last character, [None] on the empty string. *)
Fixpoint last_char (s : string) : option ascii :=
  match s with
  | EmptyString => None
  | String a EmptyString => Some a
  | String _ s' => last_char s'
  end.

(** [x in l] where [x] is [None] or a [str] and [l] a list of [str]. *)
Definition py_in (x : option string) (l : list string) : bool :=
  match x with
  | None => false
  | Some s => existsb (String.eqb s) l
  end.

(** ** Exceptions *)

(** A class of the exception hierarchy: the root, or a class derived from
    another one. *)
Inductive pyclass : Type :=
| BaseException
| Derived (name : string) (base : pyclass).

Fixpoint pyclass_eqb (c d : pyclass) : bool :=
  match c, d with
  | BaseException, BaseException => true
  | Derived n b, Derived m b' => String.eqb n m && pyclass_eqb b b'
  | _, _ => false
  end.

(** [issubclass(c, d)]: [d] is [c] or one of its ancestors. *)
Fixpoint issubclass (c d : pyclass) : bool :=
  pyclass_eqb c d ||
  match c with
  | BaseException => false
  | Derived _ b => issubclass b d
  end.

(** The built-in classes the program names or meets. *)
Definition SystemExit_class : pyclass := Derived "SystemExit" BaseException.
Definition KeyboardInterrupt : pyclass := Derived "KeyboardInterrupt" BaseException.
Definition Exception : pyclass := Derived "Exception" BaseException.
Definition RuntimeError : pyclass := Derived "RuntimeError" Exception.
Definition NotImplementedError : pyclass := Derived "NotImplementedError" RuntimeError.
Definition ValueError : pyclass := Derived "ValueError" Exception.

(** A raised exception: what [sys.exit(code)] raises, or an instance of a
    class together with its [str(e)]. *)
Inductive exn : Type :=
| SystemExit (code : Z)
| Exn (cls : pyclass) (msg : string).

Definition type_of (e : exn) : pyclass :=
  match e with
  | SystemExit _ => SystemExit_class
  | Exn cls _ => cls
  end.

(** [str(e)]. *)
Definition str (e : exn) : string :=
  match e with
  | SystemExit _ => ""
  | Exn _ msg => msg
  end.

Definition isinstance (e : exn) (c : pyclass) : bool :=
  issubclass (type_of e) c.

(** ** Events *)

Inductive level : Type := DEBUG | INFO | ERROR.

(** The numeric values of [logging]. *)
Definition levelno (l : level) : Z :=
  match l with
  | DEBUG => 10
  | INFO => 20
  | ERROR => 40
  end.

Inductive stream : Type := stdout | stderr.

(** [StreamHandler(s)] with the formatter of [log_formatter]. *)
Inductive log_handler : Type :=
| StreamHandler (s : stream).

(** A record handed to the logger: its level, its message after the
    arguments are merged in, and the exception attached by
    [logger.exception]. *)
Record LogRecord : Type := mkLogRecord {
  rec_level : level;
  rec_message : string;
  rec_exc_info : option exn
}.

(** Whether a logger configured at [configured] lets the record through. *)
Definition isEnabledFor (configured : level) (r : LogRecord) : bool :=
  (levelno configured <=? levelno (rec_level r))%Z.

(** The seven subcommand modules. *)
Inductive subcommand_module : Type :=
| subcommand_download
| subcommand_login
| subcommand_submit
| subcommand_test
| subcommand_test_reactive
| subcommand_generate_output
| subcommand_generate_input.

(** ** The parsed arguments *)

(** The [argparse.Namespace] the main parser produces: the three global
    options, the [dest] of the subparsers, and the attributes a subparser
    adds, which this file never reads. A path is kept as its text. *)
Record Namespace : Type := mkNamespace {
  verbose : bool;
  cookie : string;
  version : bool;
  subcommand : option string;
  extra : list (string * string)
}.

(** What [basicConfig], [print], the logger, the update checker and the
    subcommands do to the outside, in the order it happens. *)
Inductive event : Type :=
| BasicConfig (lvl : level) (handlers : list log_handler)
| UpdateCheck
| Print (text : string)
| PrintHelp (file : stream)
| Log (r : LogRecord)
| Call (m : subcommand_module) (args : Namespace).

(** ** Computations *)

Definition Py (A : Type) : Type := (list event * (A + exn))%type.

Definition ret {A : Type} (a : A) : Py A := ([], inl a).

Definition raise {A : Type} (e : exn) : Py A := ([], inr e).

Definition emit (ev : event) : Py unit := ([ev], inl tt).

Definition bind {A B : Type} (m : Py A) (k : A -> Py B) : Py B :=
  match m with
  | (t, inl a) => let (t', r) := k a in (t ++ t', r)
  | (t, inr e) => (t, inr e)
  end.

Notation "x <- m ;; k" := (bind m (fun x => k))
  (at level 61, m at next level, right associativity).
Notation "m ;; k" := (bind m (fun _ => k))
  (at level 61, right associativity).

(** [try: body] followed by [except] clauses: the first clause whose class
    the exception is an instance of runs; an exception no clause names goes
    on to the caller. *)
Definition try_except {A : Type} (body : Py A)
    (clauses : list (pyclass * (exn -> Py A))) : Py A :=
  match body with
  | (t, inl a) => (t, inl a)
  | (t, inr e) =>
      match find (fun cl => isinstance e (fst cl)) clauses with
      | Some cl => let (t', r) := snd cl e in (t ++ t', r)
      | None => (t, inr e)
      end
  end.

Definition trace {A : Type} (m : Py A) : list event := fst m.

Definition outcome {A : Type} (m : Py A) : A + exn := snd m.

(** [sys.exit(code)]. *)
Definition sys_exit {A : Type} (code : Z) : Py A := raise (SystemExit code).

Definition print (text : string) : Py unit := emit (Print text).

Definition basicConfig (lvl : level) (handlers : list log_handler) : Py unit :=
  emit (BasicConfig lvl handlers).

Definition logger_debug (msg : string) : Py unit :=
  emit (Log (mkLogRecord DEBUG msg None)).

Definition logger_info (msg : string) : Py unit :=
  emit (Log (mkLogRecord INFO msg None)).

Definition logger_error (msg : string) : Py unit :=
  emit (Log (mkLogRecord ERROR msg None)).

(** [logger.exception(msg)] inside an [except] clause that caught [e]: level
    ERROR, with the exception attached. *)
Definition logger_exception (msg : string) (e : exn) : Py unit :=
  emit (Log (mkLogRecord ERROR msg (Some e))).

(** ** Reading a trace *)

(** The subcommands called, in order. *)
Fixpoint calls (t : list event) : list subcommand_module :=
  match t with
  | [] => []
  | Call m _ :: t' => m :: calls t'
  | _ :: t' => calls t'
  end.

Definition is_BasicConfig (ev : event) : bool :=
  match ev with
  | BasicConfig _ _ => true
  | _ => false
  end.

Definition is_UpdateCheck (ev : event) : bool :=
  match ev with
  | UpdateCheck => true
  | _ => false
  end.

(** What a subcommand does when called: it returns, or an exception leaves
    it. *)
Inductive handler_result : Type :=
| Returns
| Raises (e : exn).

(** ** The command line after [argparse] has split it *)

(** One use of a global option on the command line. *)
Inductive option_use : Type :=
| use_verbose
| use_cookie (PATH : string)
| use_version.

(** The global options used, in order, the subcommand token when there is
    one, and what the subparser made of the rest. How [argparse] recognises
    an option string (abbreviations, [--cookie=PATH]) and which tokens it
    accepts as a subcommand is its own and the subcommand modules' affair;
    a usage error leaves the process before [main] does anything. *)
Record command_line : Type := mkCommandLine {
  cl_options : list option_use;
  cl_subcommand : option string;
  cl_extra : list (string * string)
}.

Definition is_use_cookie (o : option_use) : bool :=
  match o with
  | use_cookie _ => true
  | _ => false
  end.

Definition is_use_verbose (o : option_use) : bool :=
  match o with
  | use_verbose => true
  | _ => false
  end.


Definition NL : string := String (ascii_of_nat 10) EmptyString.

(** ** Sample collaborators and inputs *)

Definition sample_format_exc (e : exn) : string :=
  "Traceback (most recent call last):" ++ NL ++ str e.

Definition sample_str_Namespace (ns : Namespace) : string :=
  "Namespace(subcommand="
    ++ match subcommand ns with
       | Some s => s
       | None => "None"
       end
    ++ ")".

(** The arguments of a run with the given token and version flag. *)
Definition sample_args (token : option string) (flag : bool) : Namespace :=
  mkNamespace false "cookie.jar" flag token [].

Definition returning : subcommand_module -> Namespace -> handler_result :=
  fun _ _ => Returns.

Definition raising (e : exn) : subcommand_module -> Namespace -> handler_result :=
  fun _ _ => Raises e.

Definition boom : exn := Exn ValueError "boom".

Definition not_supported : exn := Exn NotImplementedError "".

(** ** The program *)

Section Main.

(** [version.__version__] and [api_version.__version__], from the two
    [__about__] modules. *)
Variable version__version__ : string.
Variable api_version__version__ : string.

(** [utils.HINT] and [utils.default_cookie_path]. *)
Variable utils_HINT : string.
Variable utils_default_cookie_path : string.

(** [traceback.format_exc()] while [e] is being handled, and [str(args)]. *)
Variable format_exc : exn -> string.
Variable str_Namespace : Namespace -> string.

(** Modelled from the spec: [update_checking.run], whose module is not
    among the sources. It is queried without arguments, answers whether the
    installed version is current, and never raises. *)
Variable update_checking_result : bool.

(** The function each subcommand module exports ([download], [login], ...):
    what it does with the parsed arguments is the module's own. *)
Variable subcommand_handler : subcommand_module -> Namespace -> handler_result.

Definition update_checking_run : Py bool :=
  emit UpdateCheck ;; ret update_checking_result.

Definition call (m : subcommand_module) (args : Namespace) : Py unit :=
  emit (Call m args) ;;
  match subcommand_handler m args with
  | Returns => ret tt
  | Raises e => raise e
  end.

Definition download := call subcommand_download.
Definition login := call subcommand_login.
Definition submit := call subcommand_submit.
Definition test := call subcommand_test.
Definition test_reactive := call subcommand_test_reactive.
Definition generate_output := call subcommand_generate_output.
Definition generate_input := call subcommand_generate_input.

(** *** [get_parser] and [parse_args] *)

(** What [get_parser] declares: the value each global option has while it
    is absent ([False] for a [store_true] option, the [default] of
    [--cookie]), and the subcommand modules whose [add_subparser] it calls,
    in that order. *)
Record ArgumentParser : Type := mkArgumentParser {
  default_verbose : bool;
  default_cookie : string;
  default_version : bool;
  subparsers : list subcommand_module
}.

Definition get_parser : ArgumentParser :=
  {| default_verbose := false;
     default_cookie := utils_default_cookie_path;
     default_version := false;
     subparsers :=
       [ subcommand_download; subcommand_login; subcommand_submit;
         subcommand_test; subcommand_generate_output;
         subcommand_generate_input; subcommand_test_reactive ] |}.

(** The namespace before any argument is consumed; the [dest] of the
    subparsers starts as [None]. *)
Definition initial_namespace (parser : ArgumentParser) : Namespace :=
  {| verbose := default_verbose parser;
     cookie := default_cookie parser;
     version := default_version parser;
     subcommand := None;
     extra := [] |}.

(** One option consumed: [store_true] sets its flag, [--cookie PATH] stores
    [pathlib.Path(PATH)]. *)
Definition consume (ns : Namespace) (o : option_use) : Namespace :=
  match o with
  | use_verbose =>
      mkNamespace true (cookie ns) (version ns) (subcommand ns) (extra ns)
  | use_cookie p =>
      mkNamespace (verbose ns) p (version ns) (subcommand ns) (extra ns)
  | use_version =>
      mkNamespace (verbose ns) (cookie ns) true (subcommand ns) (extra ns)
  end.

Definition parse_args (parser : ArgumentParser) (args : command_line) : Namespace :=
  let ns := fold_left consume (cl_options args) (initial_namespace parser) in
  mkNamespace (verbose ns) (cookie ns) (version ns)
              (cl_subcommand args) (cl_extra args).

(** *** [run_program] *)

(** The line both [--version] and the log start with. *)
Definition version_line : string :=
  "online-judge-tools " ++ version__version__
    ++ " (+ online-judge-api-client " ++ api_version__version__ ++ ")".

(** Lines 61 to 77: the chain of [if]/[elif] on [args.subcommand]. *)
Definition dispatch (args : Namespace) : Py unit :=
  if py_in (subcommand args) ["download"; "d"; "dl"] then
    download args
  else if py_in (subcommand args) ["login"; "l"] then
    login args
  else if py_in (subcommand args) ["submit"; "s"] then
    submit args
  else if py_in (subcommand args) ["test"; "t"] then
    test args
  else if py_in (subcommand args) ["test-reactive"; "t/r"] then
    test_reactive args
  else if py_in (subcommand args) ["generate-output"; "g/o"] then
    generate_output args
  else if py_in (subcommand args) ["generate-input"; "g/i"] then
    generate_input args
  else
    (emit (PrintHelp stderr) ;;
     sys_exit 1).

Definition run_program (args : Namespace) : Py unit :=
  (if version args then
     (print version_line ;;
      sys_exit 0)
   else ret tt) ;;
  logger_debug ("args: " ++ str_Namespace args) ;;
  logger_info version_line ;;
  dispatch args.

(** *** [main] *)

Definition update_hint : string :=
  utils_HINT ++ "try updating the version of online-judge-tools: $ pip3 install -U online-judge-tools online-judge-api-client".

Definition not_supported_note : string :=
  "The operation you specified is not supported yet. Pull requests are welcome.".

Definition not_supported_see : string :=
  "see: https://github.com/online-judge-tools/oj".

(** The body of [except NotImplementedError as e]. *)
Definition except_NotImplementedError (is_updated : bool) (e : exn) : Py unit :=
  logger_debug (NL ++ format_exc e) ;;
  logger_error "NotImplementedError" ;;
  logger_info not_supported_note ;;
  logger_info not_supported_see ;;
  (if negb is_updated then logger_info update_hint else ret tt) ;;
  sys_exit 1.

(** The body of [except Exception as e]. *)
Definition except_Exception (is_updated : bool) (e : exn) : Py unit :=
  logger_debug (NL ++ format_exc e) ;;
  logger_exception (str e) e ;;
  (if negb is_updated then logger_info update_hint else ret tt) ;;
  sys_exit 1.

(** [main] from the parsed arguments on (lines 84 to 110). *)
Definition main_parsed (parsed : Namespace) : Py unit :=
  let level := if verbose parsed then DEBUG else INFO in
  let handler := StreamHandler stdout in
  basicConfig level [handler] ;;
  is_updated <- update_checking_run ;;
  try_except (run_program parsed)
    [ (NotImplementedError, except_NotImplementedError is_updated);
      (Exception, except_Exception is_updated) ].

Definition main (args : command_line) : Py unit :=
  let parser := get_parser in
  let parsed := parse_args parser args in
  main_parsed parsed.

(** *** The registry, as the specification lists it *)

(** Canonical name, aliases, module. *)
Definition registry : list (string * list string * subcommand_module) :=
  [ ("download", ["d"; "dl"], subcommand_download);
    ("login", ["l"], subcommand_login);
    ("submit", ["s"], subcommand_submit);
    ("test", ["t"], subcommand_test);
    ("test-reactive", ["t/r"], subcommand_test_reactive);
    ("generate-output", ["g/o"], subcommand_generate_output);
    ("generate-input", ["g/i"], subcommand_generate_input) ].

(** Resolution as the specification words it: the entry whose canonical
    name or alias set holds the token, [None] when there is none or no
    token. *)
Definition names_of (entry : string * list string * subcommand_module) : list string :=
  fst (fst entry) :: snd (fst entry).

Definition resolve (token : option string) : option subcommand_module :=
  match find (fun entry => py_in token (names_of entry)) registry with
  | Some entry => Some (snd entry)
  | None => None
  end.

(** The two failure classes of the error policy. *)
Inductive failure_class : Type := NotSupported | Unhandled.

(** Which [except] clause of [main] takes an exception, if any. *)
Definition classify (e : exn) : option failure_class :=
  if isinstance e NotImplementedError then Some NotSupported
  else if isinstance e Exception then Some Unhandled
  else None.

(** The record of [traceback.format_exc()] at level DEBUG. *)
Definition debug_trace (e : exn) : LogRecord :=
  mkLogRecord DEBUG (NL ++ format_exc e) None.

Definition hint_record : LogRecord := mkLogRecord INFO update_hint None.

(** The marker of the [NotImplementedError] clause, and the record
    [logger.exception(str(e))] makes in the other clause. *)
Definition not_supported_marker : LogRecord :=
  mkLogRecord ERROR "NotImplementedError" None.

Definition exception_record (e : exn) : LogRecord :=
  mkLogRecord ERROR (str e) (Some e).

Definition hint_if_outdated : list event :=
  if update_checking_result then [] else [Log hint_record].

(** What each clause hands to the logger. *)
Definition not_supported_trace (e : exn) : list event :=
  [ Log (debug_trace e);
    Log not_supported_marker;
    Log (mkLogRecord INFO not_supported_note None);
    Log (mkLogRecord INFO not_supported_see None) ] ++ hint_if_outdated.

Definition unhandled_trace (e : exn) : list event :=
  [ Log (debug_trace e); Log (exception_record e) ] ++ hint_if_outdated.

(** What every run does before [run_program], and what [run_program] logs
    before it dispatches. *)
Definition configured_level (parsed : Namespace) : level :=
  if verbose parsed then DEBUG else INFO.

Definition prologue (parsed : Namespace) : list event :=
  [ BasicConfig (configured_level parsed) [StreamHandler stdout]; UpdateCheck ].

Definition args_record (args : Namespace) : LogRecord :=
  mkLogRecord DEBUG ("args: " ++ str_Namespace args) None.

Definition version_record : LogRecord := mkLogRecord INFO version_line None.


(** What the chosen clause adds after the call, and how the run ends. *)
Definition after_call (r : handler_result) : list event * (unit + exn) :=
  match r with
  | Returns => ([], inl tt)
  | Raises e =>
      match classify e with
      | Some NotSupported => (not_supported_trace e, inr (SystemExit 1))
      | Some Unhandled => (unhandled_trace e, inr (SystemExit 1))
      | None => ([], inr e)
      end
  end.

(** *** What the handler of the logger lets through *)

(** The records handed to the logger, in order. *)
Fixpoint records (t : list event) : list LogRecord :=
  match t with
  | [] => []
  | Log r :: t' => r :: records t'
  | _ :: t' => records t'
  end.

(** The records of a run that pass the level [main] configured, and so reach
    the stream handler. *)
Definition visible (parsed : Namespace) (t : list event) : list LogRecord :=
  filter (isEnabledFor (configured_level parsed)) (records t).

(** ** Strings *)

Lemma startswith_app (p q : string) : startswith (p ++ q) p = true.
Proof.
  induction p as [|a p IH]; simpl.
  - reflexivity.
  - now rewrite Ascii.eqb_refl, IH.
Qed.

Lemma contains_startswith (s sub : string) :
  startswith s sub = true -> contains s sub = true.
Proof.
  intros H. destruct s; simpl; rewrite H; reflexivity.
Qed.

Lemma contains_cons (a : ascii) (s sub : string) :
  contains s sub = true -> contains (String a s) sub = true.
Proof.
  intros H. simpl. rewrite H. apply orb_true_r.
Qed.

Lemma contains_app (a sub b : string) : contains (a ++ sub ++ b) sub = true.
Proof.
  induction a as [|c a IH]; simpl append.
  - apply contains_startswith, startswith_app.
  - apply contains_cons, IH.
Qed.

Lemma last_char_append (s : string) (c : ascii) (t : string) :
  last_char (s ++ String c t) = last_char (String c t).
Proof.
  induction s as [|a s IH].
  - reflexivity.
  - change (String a s ++ String c t)%string with (String a (s ++ String c t)).
    destruct s as [|b s']; exact IH.
Qed.

(** ** Classes *)

Lemma pyclass_eqb_eq (c d : pyclass) : pyclass_eqb c d = true -> c = d.
Proof.
  revert d. induction c as [|n b IH]; intros [|m b'] H; simpl in H;
    try discriminate; try reflexivity.
  apply andb_true_iff in H. destruct H as [Hn Hb].
  apply String.eqb_eq in Hn. apply IH in Hb. now subst.
Qed.

Lemma issubclass_refl (c : pyclass) : issubclass c c = true.
Proof.
  assert (E : pyclass_eqb c c = true).
  { induction c as [|n b IH]; simpl; [reflexivity |].
    now rewrite String.eqb_refl, IH. }
  destruct c; [reflexivity |]. cbn [issubclass]. rewrite E. reflexivity.
Qed.

Lemma issubclass_base (n : string) (base d : pyclass) :
  issubclass base d = true -> issubclass (Derived n base) d = true.
Proof.
  intros H. cbn [issubclass]. rewrite H. apply orb_true_r.
Qed.

Lemma issubclass_trans (a b c : pyclass) :
  issubclass a b = true -> issubclass b c = true -> issubclass a c = true.
Proof.
  induction a as [|n base IH]; intros Hab Hbc.
  - destruct b; [exact Hbc | discriminate Hab].
  - cbn [issubclass] in Hab. apply orb_true_iff in Hab.
    destruct Hab as [Heq | Hup].
    + apply pyclass_eqb_eq in Heq. now subst.
    + apply issubclass_base, IH; assumption.
Qed.

Lemma isinstance_NotImplementedError_Exception (e : exn) :
  isinstance e NotImplementedError = true -> isinstance e Exception = true.
Proof.
  intros H. unfold isinstance in *.
  apply (issubclass_trans _ _ _ H). reflexivity.
Qed.

Lemma isinstance_SystemExit_Exception (code : Z) :
  isinstance (SystemExit code) Exception = false.
Proof. reflexivity. Qed.

(** ** The dispatcher against the registry *)

Ltac split_chain :=
  repeat match goal with
         | |- context [py_in ?x ?l] => destruct (py_in x l)
         end.

Lemma dispatch_resolved (args : Namespace) (m : subcommand_module) :
  resolve (subcommand args) = Some m -> dispatch args = call m args.
Proof.
  cbv [resolve dispatch registry find names_of fst snd].
  split_chain; intros H; inversion H; reflexivity.
Qed.

Lemma dispatch_unresolved (args : Namespace) :
  resolve (subcommand args) = None ->
  dispatch args = ([PrintHelp stderr], inr (SystemExit 1)).
Proof.
  cbv [resolve dispatch registry find names_of fst snd].
  split_chain; intros H; try discriminate H; reflexivity.
Qed.

Lemma call_trace (m : subcommand_module) (args : Namespace) :
  trace (call m args) = [Call m args].
Proof.
  unfold call, trace. destruct (subcommand_handler m args); reflexivity.
Qed.

Lemma call_outcome (m : subcommand_module) (args : Namespace) :
  outcome (call m args) =
  match subcommand_handler m args with
  | Returns => inl tt
  | Raises e => inr e
  end.
Proof.
  unfold call, outcome. destruct (subcommand_handler m args); reflexivity.
Qed.

(** ** [run_program] and [main], path by path *)

Lemma run_program_version (args : Namespace) :
  version args = true ->
  run_program args = ([Print version_line], inr (SystemExit 0)).
Proof.
  intros H. unfold run_program. rewrite H. reflexivity.
Qed.

Lemma run_program_dispatch (args : Namespace) :
  version args = false ->
  run_program args =
  ([Log (args_record args); Log version_record] ++ trace (dispatch args),
   outcome (dispatch args)).
Proof.
  intros H. unfold run_program. rewrite H.
  destruct (dispatch args) as [t r]. reflexivity.
Qed.

Lemma except_NotImplementedError_eq (e : exn) :
  except_NotImplementedError update_checking_result e =
  (not_supported_trace e, inr (SystemExit 1)).
Proof.
  unfold except_NotImplementedError, not_supported_trace, hint_if_outdated.
  destruct update_checking_result; reflexivity.
Qed.

Lemma except_Exception_eq (e : exn) :
  except_Exception update_checking_result e =
  (unhandled_trace e, inr (SystemExit 1)).
Proof.
  unfold except_Exception, unhandled_trace, hint_if_outdated.
  destruct update_checking_result; reflexivity.
Qed.

(** [main] is the prologue, then [run_program], then the clause that takes
    the exception, if one does. *)
Lemma main_parsed_cases (parsed : Namespace) :
  main_parsed parsed =
  match outcome (run_program parsed) with
  | inl a => (prologue parsed ++ trace (run_program parsed), inl a)
  | inr e =>
      match classify e with
      | Some NotSupported =>
          (prologue parsed ++ trace (run_program parsed) ++ not_supported_trace e,
           inr (SystemExit 1))
      | Some Unhandled =>
          (prologue parsed ++ trace (run_program parsed) ++ unhandled_trace e,
           inr (SystemExit 1))
      | None => (prologue parsed ++ trace (run_program parsed), inr e)
      end
  end.
Proof.
  unfold main_parsed, update_checking_run, prologue, configured_level, classify.
  destruct (run_program parsed) as [t [a | e]]; cbn [outcome trace fst snd].
  - reflexivity.
  - unfold try_except, bind, basicConfig, emit, ret. cbn [find fst snd app].
    destruct (isinstance e NotImplementedError).
    + cbn [snd]. rewrite except_NotImplementedError_eq. reflexivity.
    + destruct (isinstance e Exception).
      * cbn [snd]. rewrite except_Exception_eq. reflexivity.
      * reflexivity.
Qed.

Lemma main_parsed_version (parsed : Namespace) :
  version parsed = true ->
  main_parsed parsed =
  (prologue parsed ++ [Print version_line], inr (SystemExit 0)).
Proof.
  intros H. rewrite main_parsed_cases, (run_program_version _ H).
  reflexivity.
Qed.

Lemma main_parsed_help (parsed : Namespace) :
  version parsed = false ->
  resolve (subcommand parsed) = None ->
  main_parsed parsed =
  (prologue parsed
     ++ [Log (args_record parsed); Log version_record; PrintHelp stderr],
   inr (SystemExit 1)).
Proof.
  intros Hv Hr.
  rewrite main_parsed_cases, (run_program_dispatch _ Hv),
    (dispatch_unresolved _ Hr).
  reflexivity.
Qed.

Lemma main_parsed_called (parsed : Namespace) (m : subcommand_module) :
  version parsed = false ->
  resolve (subcommand parsed) = Some m ->
  main_parsed parsed =
  (prologue parsed
     ++ [Log (args_record parsed); Log version_record; Call m parsed]
     ++ fst (after_call (subcommand_handler m parsed)),
   snd (after_call (subcommand_handler m parsed))).
Proof.
  intros Hv Hr.
  rewrite main_parsed_cases, (run_program_dispatch _ Hv),
    (dispatch_resolved _ _ Hr), call_trace, call_outcome.
  unfold after_call.
  destruct (subcommand_handler m parsed) as [|e]; cbn [outcome trace fst snd].
  - reflexivity.
  - destruct (classify e) as [[|]|]; cbn [fst snd];
      rewrite ?app_nil_r, <- ?app_assoc; reflexivity.
Qed.

Lemma calls_app (t u : list event) : calls (t ++ u) = calls t ++ calls u.
Proof.
  induction t as [|ev t IH]; [reflexivity |].
  destruct ev; simpl; rewrite ?IH; reflexivity.
Qed.

Lemma calls_after_call (r : handler_result) : calls (fst (after_call r)) = [].
Proof.
  destruct r as [|e]; [reflexivity |]. unfold after_call.
  destruct (classify e) as [[|]|]; cbn [fst];
    unfold not_supported_trace, unhandled_trace, hint_if_outdated;
    destruct update_checking_result; reflexivity.
Qed.

Lemma In_calls (m : subcommand_module) (args : Namespace) (t : list event) :
  In (Call m args) t -> In m (calls t).
Proof.
  induction t as [|ev t IH]; [intros [] |].
  intros [E | H].
  - subst ev. left. reflexivity.
  - destruct ev; simpl; auto.
Qed.

(** The calls of a run: none under [--version] or without a registry entry,
    otherwise the one module the token resolves to. *)
Lemma calls_main_parsed (parsed : Namespace) :
  calls (trace (main_parsed parsed)) =
  if version parsed then []
  else match resolve (subcommand parsed) with
       | Some m => [m]
       | None => []
       end.
Proof.
  destruct (version parsed) eqn:Hv.
  - rewrite (main_parsed_version _ Hv). reflexivity.
  - destruct (resolve (subcommand parsed)) as [m|] eqn:Hr.
    + rewrite (main_parsed_called _ _ Hv Hr). unfold trace. cbn [fst].
      rewrite !calls_app, calls_after_call. reflexivity.
    + rewrite (main_parsed_help _ Hv Hr). reflexivity.
Qed.

(** A run that called a module did not take the [--version] exit and
    resolved the token to that module. *)
Lemma called_inv (parsed args : Namespace) (m : subcommand_module) :
  In (Call m args) (trace (main_parsed parsed)) ->
  version parsed = false /\ resolve (subcommand parsed) = Some m.
Proof.
  intros H. apply In_calls in H. rewrite calls_main_parsed in H.
  destruct (version parsed); [destruct H |].
  destruct (resolve (subcommand parsed)) as [m'|]; [| destruct H].
  destruct H as [E | []]. now subst.
Qed.

(** ** Telling the records apart *)

Lemma last_char_app (s t : string) (c : ascii) :
  last_char t = Some c -> last_char (s ++ t) = Some c.
Proof.
  intros H. induction s as [|a s IH]; [exact H |].
  change (String a s ++ t)%string with (String a (s ++ t)).
  cbn [last_char]. destruct (s ++ t)%string; [discriminate IH | exact IH].
Qed.

Lemma version_line_last : last_char version_line = Some ")"%char.
Proof.
  unfold version_line. repeat apply last_char_app. reflexivity.
Qed.

Lemma update_hint_last : last_char update_hint = Some "t"%char.
Proof.
  unfold update_hint. apply last_char_app. reflexivity.
Qed.

Lemma hint_not_version : update_hint <> version_line.
Proof.
  intros H. apply (f_equal last_char) in H.
  rewrite update_hint_last, version_line_last in H. discriminate H.
Qed.

Lemma hint_not_note : update_hint <> not_supported_note.
Proof.
  intros H. apply (f_equal last_char) in H.
  rewrite update_hint_last in H. discriminate H.
Qed.

Lemma hint_not_see : update_hint <> not_supported_see.
Proof.
  intros H. apply (f_equal last_char) in H.
  rewrite update_hint_last in H. discriminate H.
Qed.

Lemma hint_in_hint_if_outdated :
  In (Log hint_record) hint_if_outdated <-> update_checking_result = false.
Proof.
  unfold hint_if_outdated. destruct update_checking_result; simpl.
  - split; [intros [] | discriminate].
  - split; [reflexivity | now left].
Qed.

Lemma hint_in_unhandled (e : exn) :
  In (Log hint_record) (unhandled_trace e) <-> update_checking_result = false.
Proof.
  rewrite <- hint_in_hint_if_outdated. unfold unhandled_trace.
  rewrite in_app_iff. split; [| now right].
  intros [[H | [H | []]] | H]; [discriminate H | discriminate H | exact H].
Qed.

Lemma hint_in_not_supported (e : exn) :
  In (Log hint_record) (not_supported_trace e) <->
  update_checking_result = false.
Proof.
  rewrite <- hint_in_hint_if_outdated. unfold not_supported_trace.
  rewrite in_app_iff. split; [| now right].
  intros [[H | [H | [H | [H | []]]]] | H]; try discriminate H; try exact H.
  - injection H as H. symmetry in H. destruct (hint_not_note H).
  - injection H as H. symmetry in H. destruct (hint_not_see H).
Qed.

Lemma hint_not_before_clause (parsed : Namespace) (t : list event) :
  In (Log hint_record)
     (prologue parsed ++ [Log (args_record parsed); Log version_record] ++ t) ->
  In (Log hint_record) t.
Proof.
  intros H. simpl in H.
  destruct H as [H | [H | [H | [H | H]]]]; try discriminate H; try exact H.
  injection H as H. symmetry in H. destruct (hint_not_version H).
Qed.

(** The trace of [traceback.format_exc()] opens with a line feed, the record
    of the arguments with [args]. *)
Lemma debug_trace_not_args (e : exn) (args : Namespace) :
  debug_trace e <> args_record args.
Proof.
  intros H. injection H as H. discriminate H.
Qed.

(** ** The registry and the chain of tests agree *)

Lemma resolve_registry (canonical : string) (aliases : list string)
    (m : subcommand_module) (token : string) :
  In (canonical, aliases, m) registry ->
  In token (canonical :: aliases) ->
  resolve (Some token) = Some m.
Proof.
  intros Hentry Htoken. unfold registry in Hentry. simpl in Hentry.
  repeat (destruct Hentry as [Hentry | Hentry];
          [ injection Hentry as <- <- <-; simpl in Htoken;
            repeat (destruct Htoken as [<- | Htoken]; [reflexivity |]);
            destruct Htoken
          | ]).
  destruct Hentry.
Qed.

Lemma py_in_In (token : string) (l : list string) :
  py_in (Some token) l = true -> In token l.
Proof.
  unfold py_in. intros H. apply existsb_exists in H.
  destruct H as [x [Hx E]]. apply String.eqb_eq in E. now subst.
Qed.

Lemma resolve_unknown (token : string) :
  (forall canonical aliases m,
     In (canonical, aliases, m) registry -> ~ In token (canonical :: aliases)) ->
  resolve (Some token) = None.
Proof.
  intros H. unfold resolve.
  destruct (find _ registry) as [[[canonical aliases] m]|] eqn:F; [| reflexivity].
  apply find_some in F. destruct F as [Hentry Hin].
  apply py_in_In in Hin. destruct (H _ _ _ Hentry Hin).
Qed.

Lemma contains_prefixed (a s sub : string) :
  contains s sub = true -> contains (a ++ s) sub = true.
Proof.
  intros H. induction a as [|c a IH]; [exact H |].
  apply contains_cons, IH.
Qed.

Lemma contains_refl (s : string) : contains s s = true.
Proof.
  apply contains_startswith. induction s as [|a s IH]; simpl.
  - reflexivity.
  - now rewrite Ascii.eqb_refl, IH.
Qed.

Lemma version_line_tool : contains version_line version__version__ = true.
Proof. unfold version_line. apply contains_app. Qed.

Lemma version_line_api : contains version_line api_version__version__ = true.
Proof.
  unfold version_line. do 3 apply contains_prefixed.
  apply contains_startswith, startswith_app.
Qed.

(** ** The dispatcher *)

(** C1. Every canonical name of the registry and every alias declared for it
    (download: d, dl; login: l; submit: s; test: t; test-reactive: t/r;
    generate-output: g/o; generate-input: g/i) makes the dispatcher call the
    function of that entry's module and nothing else; the canonical name and
    its aliases therefore reach the same function, and so does a whole run
    that was not asked for the version. *)
Theorem C1_alias_dispatch :
  forall (canonical : string) (aliases : list string) (m : subcommand_module)
         (token : string) (args : Namespace),
  In (canonical, aliases, m) registry ->
  In token (canonical :: aliases) ->
  subcommand args = Some token ->
  dispatch args = call m args /\
  trace (dispatch args) = [Call m args] /\
  (forall args' : Namespace,
     subcommand args' = Some canonical ->
     trace (dispatch args') = [Call m args']) /\
  (version args = false -> calls (trace (main_parsed args)) = [m]).
Proof.
  intros canonical aliases m token args Hentry Htoken Hsub.
  assert (R : resolve (subcommand args) = Some m).
  { rewrite Hsub. apply (resolve_registry _ _ _ _ Hentry Htoken). }
  repeat split.
  - apply dispatch_resolved, R.
  - rewrite (dispatch_resolved _ _ R). apply call_trace.
  - intros args' Hsub'.
    assert (R' : resolve (subcommand args') = Some m).
    { rewrite Hsub'. apply (resolve_registry _ _ _ _ Hentry). now left. }
    rewrite (dispatch_resolved _ _ R'). apply call_trace.
  - intros Hv. rewrite calls_main_parsed, Hv, R. reflexivity.
Qed.

(** ** The version query *)

(** C2, as the code has it. When the version flag is set the update checker
    has already been queried, once, right after logging was configured and
    before [run_program] looks at the flag; the version line is then printed
    and nothing follows it: the run leaves with code 0 and no subcommand is
    called. *)
Theorem C2_version_after_update_check :
  forall parsed : Namespace,
  version parsed = true ->
  trace (main_parsed parsed) =
    [ BasicConfig (configured_level parsed) [StreamHandler stdout];
      UpdateCheck;
      Print version_line ] /\
  filter is_UpdateCheck (trace (main_parsed parsed)) = [UpdateCheck] /\
  outcome (main_parsed parsed) = inr (SystemExit 0) /\
  calls (trace (main_parsed parsed)) = [].
Proof.
  intros parsed Hv. rewrite (main_parsed_version _ Hv).
  repeat split.
Qed.

(** C3. Whatever the other flags and the subcommand token are, a run with
    the version flag set prints a text that holds both the version of the
    tool and the version of the API client, leaves with code 0, and calls no
    subcommand. *)
Theorem C3_version_flag :
  forall parsed : Namespace,
  version parsed = true ->
  (exists text : string,
     In (Print text) (trace (main_parsed parsed)) /\
     contains text version__version__ = true /\
     contains text api_version__version__ = true) /\
  outcome (main_parsed parsed) = inr (SystemExit 0) /\
  calls (trace (main_parsed parsed)) = [].
Proof.
  intros parsed Hv. rewrite (main_parsed_version _ Hv).
  split; [| split; reflexivity].
  exists version_line. split; [| split].
  - simpl. auto.
  - apply version_line_tool.
  - apply version_line_api.
Qed.

(** ** The error policy *)

Lemma main_parsed_raised (parsed : Namespace) (m : subcommand_module) (e : exn) :
  In (Call m parsed) (trace (main_parsed parsed)) ->
  subcommand_handler m parsed = Raises e ->
  main_parsed parsed =
  (prologue parsed
     ++ [Log (args_record parsed); Log version_record; Call m parsed]
     ++ fst (after_call (Raises e)),
   snd (after_call (Raises e))).
Proof.
  intros Hcall Hraise. destruct (called_inv _ _ _ Hcall) as [Hv Hr].
  rewrite (main_parsed_called _ _ Hv Hr), Hraise. reflexivity.
Qed.

Lemma classify_not_supported (e : exn) :
  isinstance e NotImplementedError = true -> classify e = Some NotSupported.
Proof.
  intros H. unfold classify. now rewrite H.
Qed.

Lemma classify_unhandled (e : exn) :
  isinstance e Exception = true ->
  isinstance e NotImplementedError = false ->
  classify e = Some Unhandled.
Proof.
  intros H H'. unfold classify. now rewrite H', H.
Qed.

Lemma error_record_enabled (parsed : Namespace) (r : LogRecord) :
  rec_level r = ERROR -> isEnabledFor (configured_level parsed) r = true.
Proof.
  intros H. unfold isEnabledFor, configured_level. rewrite H.
  destruct (verbose parsed); reflexivity.
Qed.

(** C4. When the subcommand a run called raises an exception of the general
    class [Exception] that is not a [NotImplementedError], the run hands the
    logger the full trace at level DEBUG and a record at level ERROR whose
    message holds [str(e)] (so a failure saying boom yields a record that
    holds boom) and which passes the configured level whether verbose or not;
    it logs the upgrade hint exactly when the update checker answered that
    the tool is not current; and it leaves with code 1. *)
Theorem C4_unhandled_failure :
  forall (parsed : Namespace) (m : subcommand_module) (e : exn),
  In (Call m parsed) (trace (main_parsed parsed)) ->
  subcommand_handler m parsed = Raises e ->
  isinstance e Exception = true ->
  isinstance e NotImplementedError = false ->
  outcome (main_parsed parsed) = inr (SystemExit 1) /\
  In (Log (debug_trace e)) (trace (main_parsed parsed)) /\
  (exists r : LogRecord,
     In (Log r) (trace (main_parsed parsed)) /\
     rec_level r = ERROR /\
     contains (rec_message r) (str e) = true /\
     isEnabledFor (configured_level parsed) r = true) /\
  (In (Log hint_record) (trace (main_parsed parsed)) <->
   update_checking_result = false).
Proof.
  intros parsed m e Hcall Hraise Hexc Hnot.
  rewrite (main_parsed_raised _ _ _ Hcall Hraise).
  unfold after_call. rewrite (classify_unhandled _ Hexc Hnot).
  cbn [trace outcome fst snd].
  split; [reflexivity |]. split; [| split].
  - apply in_or_app. right. simpl. auto 10.
  - exists (exception_record e). split; [| split; [| split]].
    + apply in_or_app. right. simpl. auto 10.
    + reflexivity.
    + apply contains_refl.
    + apply error_record_enabled. reflexivity.
  - rewrite <- hint_in_unhandled with (e := e). split.
    + intros H.
      change (prologue parsed ++
              [Log (args_record parsed); Log version_record; Call m parsed] ++
              unhandled_trace e)
        with (prologue parsed ++
              [Log (args_record parsed); Log version_record] ++
              Call m parsed :: unhandled_trace e) in H.
      apply hint_not_before_clause in H.
      destruct H as [H | H]; [discriminate H | exact H].
    + intros H. apply in_or_app. right. apply in_or_app. right. exact H.
Qed.

(** C5. When the subcommand a run called raises a [NotImplementedError], the
    run hands the logger the full trace at level DEBUG (let through only
    when verbose), the one-line marker of the class at level ERROR, the note
    that the operation is not supported and that pull requests are welcome
    with the address of the project, and the upgrade hint exactly when the
    update checker answered that the tool is not current; it leaves with
    code 1. *)
Theorem C5_not_supported_failure :
  forall (parsed : Namespace) (m : subcommand_module) (e : exn),
  In (Call m parsed) (trace (main_parsed parsed)) ->
  subcommand_handler m parsed = Raises e ->
  isinstance e NotImplementedError = true ->
  outcome (main_parsed parsed) = inr (SystemExit 1) /\
  In (Log (debug_trace e)) (trace (main_parsed parsed)) /\
  isEnabledFor (configured_level parsed) (debug_trace e) = verbose parsed /\
  In (Log (mkLogRecord ERROR "NotImplementedError" None))
     (trace (main_parsed parsed)) /\
  In (Log (mkLogRecord INFO not_supported_note None))
     (trace (main_parsed parsed)) /\
  In (Log (mkLogRecord INFO not_supported_see None))
     (trace (main_parsed parsed)) /\
  (In (Log hint_record) (trace (main_parsed parsed)) <->
   update_checking_result = false).
Proof.
  intros parsed m e Hcall Hraise Hnot.
  rewrite (main_parsed_raised _ _ _ Hcall Hraise).
  unfold after_call. rewrite (classify_not_supported _ Hnot).
  cbn [trace outcome fst snd].
  split; [reflexivity |].
  split; [apply in_or_app; right; simpl; auto 10 |].
  split; [unfold configured_level; destruct (verbose parsed); reflexivity |].
  split; [apply in_or_app; right; simpl; auto 10 |].
  split; [apply in_or_app; right; simpl; auto 10 |].
  split; [apply in_or_app; right; simpl; auto 10 |].
  rewrite <- hint_in_not_supported with (e := e). split.
  - intros H.
    change (prologue parsed ++
            [Log (args_record parsed); Log version_record; Call m parsed] ++
            not_supported_trace e)
      with (prologue parsed ++
            [Log (args_record parsed); Log version_record] ++
            Call m parsed :: not_supported_trace e) in H.
    apply hint_not_before_clause in H.
    destruct H as [H | H]; [discriminate H | exact H].
  - intros H. apply in_or_app. right. apply in_or_app. right. exact H.
Qed.

(** A subcommand that returns lets [main] return, and nothing is logged
    after the call. *)
Lemma main_parsed_returns (parsed : Namespace) (m : subcommand_module) :
  In (Call m parsed) (trace (main_parsed parsed)) ->
  subcommand_handler m parsed = Returns ->
  main_parsed parsed =
  (prologue parsed
     ++ [Log (args_record parsed); Log version_record; Call m parsed],
   inl tt).
Proof.
  intros Hcall Hret. destruct (called_inv _ _ _ Hcall) as [Hv Hr].
  rewrite (main_parsed_called _ _ Hv Hr), Hret. reflexivity.
Qed.

(** What is not an instance of [Exception] (the [SystemExit] of a subcommand
    that calls [sys.exit], a [KeyboardInterrupt]) passes both clauses: it
    leaves [main] as it left the subcommand, and no clause logs. *)
Lemma main_parsed_propagates (parsed : Namespace) (m : subcommand_module)
    (e : exn) :
  In (Call m parsed) (trace (main_parsed parsed)) ->
  subcommand_handler m parsed = Raises e ->
  isinstance e Exception = false ->
  main_parsed parsed =
  (prologue parsed
     ++ [Log (args_record parsed); Log version_record; Call m parsed],
   inr e).
Proof.
  intros Hcall Hraise Hexc.
  rewrite (main_parsed_raised _ _ _ Hcall Hraise).
  assert (Hnot : isinstance e NotImplementedError = false).
  { destruct (isinstance e NotImplementedError) eqn:E; [| reflexivity].
    rewrite (isinstance_NotImplementedError_Exception _ E) in Hexc.
    discriminate Hexc. }
  unfold after_call, classify. rewrite Hnot, Hexc. reflexivity.
Qed.

Lemma KeyboardInterrupt_not_Exception (msg : string) :
  isinstance (Exn KeyboardInterrupt msg) Exception = false.
Proof. reflexivity. Qed.

(** ** Leaving without a subcommand *)

Lemma resolve_missing_or_unknown (parsed : Namespace) :
  subcommand parsed = None \/
  (exists token : string,
     subcommand parsed = Some token /\
     forall canonical aliases m,
       In (canonical, aliases, m) registry ->
       ~ In token (canonical :: aliases)) ->
  resolve (subcommand parsed) = None.
Proof.
  intros [H | [token [H Hnone]]]; rewrite H.
  - reflexivity.
  - apply resolve_unknown, Hnone.
Qed.

(** C6, as the code has it. In a run without the version flag, when no
    subcommand token was supplied or the token is neither a canonical name
    nor an alias of the registry, the help is printed to the error stream,
    the run leaves with code 1, and no subcommand is called. *)
Theorem C6_help_without_subcommand :
  forall parsed : Namespace,
  version parsed = false ->
  subcommand parsed = None \/
  (exists token : string,
     subcommand parsed = Some token /\
     forall canonical aliases m,
       In (canonical, aliases, m) registry ->
       ~ In token (canonical :: aliases)) ->
  In (PrintHelp stderr) (trace (main_parsed parsed)) /\
  outcome (main_parsed parsed) = inr (SystemExit 1) /\
  calls (trace (main_parsed parsed)) = [].
Proof.
  intros parsed Hv Hsub.
  rewrite (main_parsed_help _ Hv (resolve_missing_or_unknown _ Hsub)).
  split; [| split; reflexivity].
  simpl. auto 10.
Qed.

(** ** Logging and the cookie path *)

Lemma after_call_no_config (r : handler_result) :
  existsb is_BasicConfig (fst (after_call r)) = false.
Proof.
  destruct r as [|e]; [reflexivity |]. unfold after_call.
  destruct (classify e) as [[|]|]; cbn [fst];
    unfold not_supported_trace, unhandled_trace, hint_if_outdated;
    destruct update_checking_result; reflexivity.
Qed.

Lemma main_parsed_configures_once (parsed : Namespace) :
  exists rest : list event,
    trace (main_parsed parsed) =
      BasicConfig (if verbose parsed then DEBUG else INFO)
                  [StreamHandler stdout] :: rest /\
    existsb is_BasicConfig rest = false.
Proof.
  destruct (version parsed) eqn:Hv.
  - rewrite (main_parsed_version _ Hv). eexists. split; reflexivity.
  - destruct (resolve (subcommand parsed)) as [m|] eqn:Hr.
    + rewrite (main_parsed_called _ _ Hv Hr). eexists. split; [reflexivity |].
      cbn [existsb is_BasicConfig app orb].
      apply after_call_no_config.
    + rewrite (main_parsed_help _ Hv Hr). eexists. split; reflexivity.
Qed.

Lemma consume_keeps_cookie (opts : list option_use) (ns : Namespace) :
  existsb is_use_cookie opts = false ->
  cookie (fold_left consume opts ns) = cookie ns.
Proof.
  revert ns. induction opts as [|o opts IH]; intros ns H; [reflexivity |].
  cbn [existsb] in H. apply orb_false_iff in H. destruct H as [Ho H].
  cbn [fold_left]. rewrite (IH _ H).
  destruct o; [reflexivity | discriminate Ho | reflexivity].
Qed.

Lemma consume_verbose (opts : list option_use) (ns : Namespace) :
  verbose (fold_left consume opts ns) =
  verbose ns || existsb is_use_verbose opts.
Proof.
  revert ns. induction opts as [|o opts IH]; intros ns.
  - cbn. now rewrite orb_false_r.
  - cbn [fold_left existsb]. rewrite IH.
    destruct o; cbn [consume verbose is_use_verbose];
      rewrite ?orb_false_l, ?orb_true_r; reflexivity.
Qed.

(** C7. Every run configures logging once, as the first thing it does and so
    before any subcommand is called: at level DEBUG when the verbose flag is
    set and INFO otherwise, with the single handler that writes to the
    standard output. The verbose flag is set exactly when the option was
    used, and a command line that does not use [-c]/[--cookie] leaves the
    cookie path at [utils.default_cookie_path]. *)
Theorem C7_logging_and_cookie_default :
  forall (parsed : Namespace) (args : command_line),
  (exists rest : list event,
     trace (main_parsed parsed) =
       BasicConfig (if verbose parsed then DEBUG else INFO)
                   [StreamHandler stdout] :: rest /\
     existsb is_BasicConfig rest = false) /\
  (exists rest : list event,
     trace (main args) =
       BasicConfig (if existsb is_use_verbose (cl_options args)
                    then DEBUG else INFO)
                   [StreamHandler stdout] :: rest /\
     existsb is_BasicConfig rest = false) /\
  (existsb is_use_cookie (cl_options args) = false ->
   cookie (parse_args get_parser args) = utils_default_cookie_path).
Proof.
  intros parsed args. split; [apply main_parsed_configures_once |].
  split.
  - unfold main.
    destruct (main_parsed_configures_once (parse_args get_parser args))
      as [rest [E H]].
    exists rest. split; [| exact H]. rewrite E.
    unfold parse_args. cbn [verbose]. rewrite consume_verbose. reflexivity.
  - intros H. unfold parse_args. cbn [cookie].
    rewrite (consume_keeps_cookie _ _ H). reflexivity.
Qed.

(** ** [sys.exit] passes the [except] clauses *)

Lemma classify_SystemExit (code : Z) : classify (SystemExit code) = None.
Proof. reflexivity. Qed.

(** C8. On the path of the version query and on the path of the missing or
    unknown subcommand, [sys.exit] raises [SystemExit], which is not an
    instance of [Exception]: neither [except] clause of [main] takes it, so
    the run ends with the code [run_program] chose (0 for the version, 1
    for the missing or unknown subcommand), and the logger has received no
    record at level ERROR, none with an exception attached, no trace of
    [traceback.format_exc()] and no upgrade hint. *)
Theorem C8_exit_passes_except_clauses :
  forall parsed : Namespace,
  version parsed = true \/ resolve (subcommand parsed) = None ->
  outcome (main_parsed parsed) =
    inr (SystemExit (if version parsed then 0 else 1)) /\
  outcome (main_parsed parsed) = outcome (run_program parsed) /\
  (forall code : Z,
     isinstance (SystemExit code) Exception = false /\
     classify (SystemExit code) = None) /\
  (forall r : LogRecord,
     In (Log r) (trace (main_parsed parsed)) ->
     rec_level r <> ERROR /\
     rec_exc_info r = None /\
     (forall e : exn, r <> debug_trace e) /\
     r <> hint_record).
Proof.
  intros parsed Hpath.
  destruct (version parsed) eqn:Hv.
  - rewrite (main_parsed_version _ Hv), (run_program_version _ Hv).
    split; [reflexivity |]. split; [reflexivity |].
    split; [intros code; split; reflexivity |].
    intros r H. simpl in H.
    destruct H as [H | [H | [H | []]]]; discriminate H.
  - destruct Hpath as [Hpath | Hr]; [discriminate Hpath |].
    rewrite (main_parsed_help _ Hv Hr), (run_program_dispatch _ Hv),
      (dispatch_unresolved _ Hr).
    split; [reflexivity |]. split; [reflexivity |].
    split; [intros code; split; reflexivity |].
    intros r H. simpl in H.
    destruct H as [H | [H | [H | [H | [H | []]]]]]; try discriminate H;
      injection H as <-.
    + split; [discriminate |]. split; [reflexivity |]. split.
      * intros e E. symmetry in E. exact (debug_trace_not_args _ _ E).
      * intros E. discriminate E.
    + split; [discriminate |]. split; [reflexivity |]. split.
      * intros e E. discriminate E.
      * intros E. injection E as E. symmetry in E. exact (hint_not_version E).
Qed.

(** C9. An exception that is an instance of [NotImplementedError] is also an
    instance of [Exception], and it is the first clause that takes it: the
    run that called the raising subcommand logs the marker of the class and
    what follows it, and no record of [logger.exception] (the only one that
    carries the exception) reaches the logger. Every instance of
    [Exception] is taken by one clause and one only, decided by whether it
    is a [NotImplementedError]. *)
Theorem C9_not_supported_first :
  forall e : exn,
  isinstance e NotImplementedError = true ->
  isinstance e Exception = true /\
  classify e = Some NotSupported /\
  (forall (parsed : Namespace) (m : subcommand_module),
     In (Call m parsed) (trace (main_parsed parsed)) ->
     subcommand_handler m parsed = Raises e ->
     trace (main_parsed parsed) =
       prologue parsed
         ++ [Log (args_record parsed); Log version_record; Call m parsed]
         ++ not_supported_trace e /\
     In (Log not_supported_marker) (trace (main_parsed parsed)) /\
     (forall r : LogRecord,
        In (Log r) (trace (main_parsed parsed)) -> rec_exc_info r = None)) /\
  (forall e' : exn,
     isinstance e' Exception = true ->
     classify e' =
       Some (if isinstance e' NotImplementedError
             then NotSupported else Unhandled)).
Proof.
  intros e Hnot.
  split; [apply isinstance_NotImplementedError_Exception, Hnot |].
  split; [apply classify_not_supported, Hnot |].
  split.
  - intros parsed m Hcall Hraise.
    rewrite (main_parsed_raised _ _ _ Hcall Hraise).
    unfold after_call. rewrite (classify_not_supported _ Hnot).
    cbn [trace fst]. split; [reflexivity |]. split.
    + apply in_or_app. right. simpl. auto 10.
    + intros r H. unfold not_supported_trace, hint_if_outdated in H.
      destruct update_checking_result; simpl in H;
        repeat (destruct H as [H | H];
                [try discriminate H; injection H as <-; reflexivity |]);
        destruct H.
  - intros e' Hexc. unfold classify. rewrite Hexc.
    destruct (isinstance e' NotImplementedError); reflexivity.
Qed.

(** ** The version line in the log *)

Lemma main_parsed_logs_version (parsed : Namespace) :
  version parsed = false ->
  exists after : list event,
    trace (main_parsed parsed) =
      (prologue parsed ++ [Log (args_record parsed)])
        ++ Log version_record :: after.
Proof.
  intros Hv. destruct (resolve (subcommand parsed)) as [m|] eqn:Hr.
  - rewrite (main_parsed_called _ _ Hv Hr). eexists. reflexivity.
  - rewrite (main_parsed_help _ Hv Hr). eexists. reflexivity.
Qed.

(** C10. A run that does not leave through the version query logs, whatever
    the subcommand token is and before any subcommand is called, a record at
    level INFO whose message holds the version of the tool and the version
    of the API client; the configured level lets it through. *)
Theorem C10_version_logged_before_call :
  forall parsed : Namespace,
  version parsed = false ->
  exists (before after : list event) (r : LogRecord),
    trace (main_parsed parsed) = before ++ Log r :: after /\
    calls before = [] /\
    rec_level r = INFO /\
    contains (rec_message r) version__version__ = true /\
    contains (rec_message r) api_version__version__ = true /\
    isEnabledFor (configured_level parsed) r = true.
Proof.
  intros parsed Hv.
  destruct (main_parsed_logs_version _ Hv) as [after E].
  exists (prologue parsed ++ [Log (args_record parsed)]), after, version_record.
  split; [exact E |]. split; [reflexivity |]. split; [reflexivity |].
  split; [apply version_line_tool |]. split; [apply version_line_api |].
  unfold configured_level. destruct (verbose parsed); reflexivity.
Qed.

(** ** Beyond the failure paths: how a run ends *)

Lemma no_call_after_call (m : subcommand_module) (args : Namespace)
    (r : handler_result) :
  ~ In (Call m args) (fst (after_call r)).
Proof.
  intros H. apply In_calls in H. rewrite calls_after_call in H. destruct H.
Qed.


(** X1. A run whose subcommand returns ends by returning from [main]: the
    call is its last event, after the configuration, the update check and
    the two records of [run_program]; no clause of the error policy runs. *)
Theorem X1_subcommand_returns :
  forall (parsed : Namespace) (m : subcommand_module),
  In (Call m parsed) (trace (main_parsed parsed)) ->
  subcommand_handler m parsed = Returns ->
  outcome (main_parsed parsed) = inl tt /\
  trace (main_parsed parsed) =
    [ BasicConfig (configured_level parsed) [StreamHandler stdout];
      UpdateCheck;
      Log (args_record parsed);
      Log version_record;
      Call m parsed ].
Proof.
  intros parsed m Hcall Hret.
  rewrite (main_parsed_returns _ _ Hcall Hret). split; reflexivity.
Qed.

(** X2. An exception of a called subcommand that is not an instance of
    [Exception] is caught by neither clause: it leaves [main] unchanged, so
    a subcommand that calls [sys.exit(code)] ends the run with that code,
    and nothing is logged after the call. *)
Theorem X2_non_exception_passes :
  forall (parsed : Namespace) (m : subcommand_module) (e : exn),
  In (Call m parsed) (trace (main_parsed parsed)) ->
  subcommand_handler m parsed = Raises e ->
  isinstance e Exception = false ->
  outcome (main_parsed parsed) = inr e /\
  records (trace (main_parsed parsed)) = [args_record parsed; version_record] /\
  (exists before : list event,
     trace (main_parsed parsed) = before ++ [Call m parsed]).
Proof.
  intros parsed m e Hcall Hraise Hexc.
  rewrite (main_parsed_propagates _ _ _ Hcall Hraise Hexc).
  split; [reflexivity |]. split; [reflexivity |].
  exists (prologue parsed ++ [Log (args_record parsed); Log version_record]).
  reflexivity.
Qed.


(** X4. A subcommand is called only on a run without the version flag whose
    token is the canonical name or an alias of that subcommand's registry
    entry; it is the only call of the run, and it receives the parsed
    arguments as they are, with the token as it was typed. *)
Theorem X4_call_only_by_name :
  forall (parsed args : Namespace) (m : subcommand_module),
  In (Call m args) (trace (main_parsed parsed)) ->
  args = parsed /\
  version parsed = false /\
  (exists (canonical : string) (aliases : list string) (token : string),
     In (canonical, aliases, m) registry /\
     subcommand parsed = Some token /\
     In token (canonical :: aliases)) /\
  calls (trace (main_parsed parsed)) = [m].
Proof.
  intros parsed args m Hcall.
  destruct (called_inv _ _ _ Hcall) as [Hv Hr].
  split; [| split; [exact Hv | split]].
  - rewrite (main_parsed_called _ _ Hv Hr) in Hcall. simpl in Hcall.
    destruct Hcall as [H | [H | [H | [H | [H | H]]]]]; try discriminate H.
    + injection H as E. now subst.
    + destruct (no_call_after_call _ _ _ H).
  - unfold resolve in Hr.
    destruct (find _ registry) as [[[canonical aliases] m']|] eqn:F;
      [| discriminate Hr].
    injection Hr as ->. apply find_some in F. destruct F as [Hentry Hin].
    destruct (subcommand parsed) as [token|] eqn:Hs; [| discriminate Hin].
    exists canonical, aliases, token.
    split; [exact Hentry |]. split; [reflexivity |].
    apply py_in_In, Hin.
  - rewrite calls_main_parsed, Hv, Hr. reflexivity.
Qed.

(** ** The table of names *)



Lemma module_has_entry (m : subcommand_module) :
  exists (canonical : string) (aliases : list string),
    In (canonical, aliases, m) registry.
Proof.
  destruct m;
    [ exists "download", ["d"; "dl"]
    | exists "login", ["l"]
    | exists "submit", ["s"]
    | exists "test", ["t"]
    | exists "test-reactive", ["t/r"]
    | exists "generate-output", ["g/o"]
    | exists "generate-input", ["g/i"] ];
    simpl; auto 10.
Qed.

(** X6. [get_parser] adds the subparser of each of the seven subcommand
    modules once, and each of them has a branch in [run_program]: under its
    canonical name the dispatcher calls that module and nothing else. *)
Theorem X6_every_subparser_is_dispatched :
  NoDup (subparsers get_parser) /\
  forall m : subcommand_module,
    In m (subparsers get_parser) /\
    exists (canonical : string) (aliases : list string),
      In (canonical, aliases, m) registry /\
      forall args : Namespace,
        subcommand args = Some canonical ->
        trace (dispatch args) = [Call m args].
Proof.
  split.
  - unfold get_parser. cbn [subparsers].
    repeat (constructor; [simpl; intuition discriminate |]). constructor.
  - intros m. split; [destruct m; simpl; auto 10 |].
    destruct (module_has_entry m) as [canonical [aliases Hentry]].
    exists canonical, aliases. split; [exact Hentry |].
    intros args Hsub.
    assert (R : resolve (subcommand args) = Some m).
    { rewrite Hsub. apply (resolve_registry _ _ _ _ Hentry). now left. }
    rewrite (dispatch_resolved _ _ R). apply call_trace.
Qed.

(** ** The update check *)

Lemma after_call_no_update_check (r : handler_result) :
  existsb is_UpdateCheck (fst (after_call r)) = false.
Proof.
  destruct r as [|e]; [reflexivity |]. unfold after_call.
  destruct (classify e) as [[|]|]; cbn [fst];
    unfold not_supported_trace, unhandled_trace, hint_if_outdated;
    destruct update_checking_result; reflexivity.
Qed.

(** X7. Every run, also one that ends with the version or with the help,
    queries the update checker once: right after logging is configured and
    before anything is printed, logged or called. *)
Theorem X7_update_check_once_and_first :
  forall parsed : Namespace,
  exists rest : list event,
    trace (main_parsed parsed) =
      BasicConfig (configured_level parsed) [StreamHandler stdout]
        :: UpdateCheck :: rest /\
    existsb is_UpdateCheck rest = false.
Proof.
  intros parsed. destruct (version parsed) eqn:Hv.
  - rewrite (main_parsed_version _ Hv). eexists. split; reflexivity.
  - destruct (resolve (subcommand parsed)) as [m|] eqn:Hr.
    + rewrite (main_parsed_called _ _ Hv Hr). eexists. split; [reflexivity |].
      cbn [existsb is_UpdateCheck app orb].
      apply after_call_no_update_check.
    + rewrite (main_parsed_help _ Hv Hr). eexists. split; reflexivity.
Qed.

(** ** Diagnostics only after a failure *)

Lemma hint_only_in_clause (r : handler_result) :
  In (Log hint_record) (fst (after_call r)) ->
  update_checking_result = false /\
  exists e : exn, r = Raises e /\ isinstance e Exception = true.
Proof.
  destruct r as [|e]; [intros [] |]. unfold after_call, classify.
  destruct (isinstance e NotImplementedError) eqn:Hn.
  - cbn [fst]. intros H. apply hint_in_not_supported in H.
    split; [exact H |]. exists e. split; [reflexivity |].
    apply isinstance_NotImplementedError_Exception, Hn.
  - destruct (isinstance e Exception) eqn:He; [| intros []].
    cbn [fst]. intros H. apply hint_in_unhandled in H.
    split; [exact H |]. now exists e.
Qed.

Lemma clause_ends_with_hint (e : exn) (c : failure_class) :
  classify e = Some c ->
  update_checking_result = false ->
  exists before : list event,
    fst (after_call (Raises e)) = before ++ [Log hint_record].
Proof.
  intros Hc Hu. unfold after_call. rewrite Hc.
  destruct c; cbn [fst];
    unfold not_supported_trace, unhandled_trace, hint_if_outdated;
    rewrite Hu; eexists; reflexivity.
Qed.

(** X8. The upgrade hint is logged only when a called subcommand raised an
    instance of [Exception] and the update checker answered that the tool is
    not current; it is then the last event of the run. A run that succeeds,
    prints the version or prints the help never shows it. *)
Theorem X8_hint_only_after_failure :
  forall parsed : Namespace,
  In (Log hint_record) (trace (main_parsed parsed)) ->
  update_checking_result = false /\
  (exists (m : subcommand_module) (e : exn),
     In (Call m parsed) (trace (main_parsed parsed)) /\
     subcommand_handler m parsed = Raises e /\
     isinstance e Exception = true) /\
  (exists before : list event,
     trace (main_parsed parsed) = before ++ [Log hint_record]).
Proof.
  intros parsed H. destruct (version parsed) eqn:Hv.
  - rewrite (main_parsed_version _ Hv) in H. simpl in H.
    destruct H as [H | [H | [H | []]]]; discriminate H.
  - destruct (resolve (subcommand parsed)) as [m|] eqn:Hr.
    + rewrite (main_parsed_called _ _ Hv Hr) in *. cbn [trace fst] in *.
      change (prologue parsed ++
              [Log (args_record parsed); Log version_record; Call m parsed] ++
              fst (after_call (subcommand_handler m parsed)))
        with (prologue parsed ++
              [Log (args_record parsed); Log version_record] ++
              Call m parsed :: fst (after_call (subcommand_handler m parsed)))
        in H.
      apply hint_not_before_clause in H.
      destruct H as [H | H]; [discriminate H |].
      destruct (hint_only_in_clause _ H) as [Hu [e [Hh He]]].
      split; [exact Hu |]. split.
      * exists m, e. split; [| split; [exact Hh | exact He]].
        apply in_or_app. right. simpl. auto.
      * rewrite Hh.
        assert (Hc : exists c, classify e = Some c).
        { unfold classify. rewrite He.
          destruct (isinstance e NotImplementedError); eexists; reflexivity. }
        destruct Hc as [c Hc].
        destruct (clause_ends_with_hint _ _ Hc Hu) as [before E].
        rewrite E.
        exists (prologue parsed ++
                [Log (args_record parsed); Log version_record; Call m parsed] ++
                before).
        rewrite <- !app_assoc. reflexivity.
    + rewrite (main_parsed_help _ Hv Hr) in H. cbn [trace fst] in H.
      apply (hint_not_before_clause parsed [PrintHelp stderr]) in H.
      destruct H as [H | []]. discriminate H.
Qed.

Lemma error_not_before_clause (parsed : Namespace) (t : list event)
    (r : LogRecord) :
  In (Log r)
     (prologue parsed ++ [Log (args_record parsed); Log version_record] ++ t) ->
  rec_level r = ERROR ->
  In (Log r) t.
Proof.
  intros H Hlevel. simpl in H.
  destruct H as [H | [H | [H | [H | H]]]]; try discriminate H; try exact H;
    injection H as <-; discriminate Hlevel.
Qed.

Lemma error_only_in_clause (r0 : handler_result) (r : LogRecord) :
  In (Log r) (fst (after_call r0)) ->
  rec_level r = ERROR ->
  exists e : exn, r0 = Raises e /\ isinstance e Exception = true.
Proof.
  destruct r0 as [|e]; [intros [] |]. unfold after_call, classify.
  destruct (isinstance e NotImplementedError) eqn:Hn.
  - intros _ _. exists e. split; [reflexivity |].
    apply isinstance_NotImplementedError_Exception, Hn.
  - destruct (isinstance e Exception) eqn:He; [| intros []].
    intros _ _. now exists e.
Qed.

(** X9. A record at level ERROR reaches the logger exactly on the runs in
    which a called subcommand raised an instance of [Exception]: a run that
    succeeds, prints the version, prints the help, or is left by a
    [SystemExit] or [KeyboardInterrupt] of the subcommand logs no error. *)
Theorem X9_error_record_iff_failure :
  forall parsed : Namespace,
  (exists r : LogRecord,
     In (Log r) (trace (main_parsed parsed)) /\ rec_level r = ERROR) <->
  (exists (m : subcommand_module) (e : exn),
     In (Call m parsed) (trace (main_parsed parsed)) /\
     subcommand_handler m parsed = Raises e /\
     isinstance e Exception = true).
Proof.
  intros parsed. split.
  - intros [r [H Hlevel]]. destruct (version parsed) eqn:Hv.
    + rewrite (main_parsed_version _ Hv) in H. simpl in H.
      destruct H as [H | [H | [H | []]]]; discriminate H.
    + destruct (resolve (subcommand parsed)) as [m|] eqn:Hr.
      * rewrite (main_parsed_called _ _ Hv Hr) in *. cbn [trace fst] in *.
        change (prologue parsed ++
                [Log (args_record parsed); Log version_record; Call m parsed] ++
                fst (after_call (subcommand_handler m parsed)))
          with (prologue parsed ++
                [Log (args_record parsed); Log version_record] ++
                Call m parsed :: fst (after_call (subcommand_handler m parsed)))
          in H.
        apply error_not_before_clause in H; [| exact Hlevel].
        destruct H as [H | H]; [discriminate H |].
        destruct (error_only_in_clause _ _ H Hlevel) as [e [Hh He]].
        exists m, e. split; [| split; [exact Hh | exact He]].
        apply in_or_app. right. simpl. auto.
      * rewrite (main_parsed_help _ Hv Hr) in H. cbn [trace fst] in H.
        apply (error_not_before_clause parsed [PrintHelp stderr]) in H;
          [| exact Hlevel].
        destruct H as [H | []]. discriminate H.
  - intros [m [e [Hcall [Hraise He]]]].
    rewrite (main_parsed_raised _ _ _ Hcall Hraise).
    unfold after_call, classify. rewrite He.
    destruct (isinstance e NotImplementedError); cbn [trace fst].
    + exists not_supported_marker. split; [| reflexivity].
      apply in_or_app. right. simpl. auto 10.
    + exists (exception_record e). split; [| reflexivity].
      apply in_or_app. right. simpl. auto 10.
Qed.

(** X10. Without [-v], what a failing run shows is short: the version line,
    then the marker and the two notes of the [NotImplementedError] clause or
    the one record of [logger.exception], then the hint when the tool is not
    current. The record of the arguments and the record of the trace, both
    at level DEBUG, are held back. *)
Theorem X10_quiet_failure_output :
  forall (parsed : Namespace) (m : subcommand_module) (e : exn),
  In (Call m parsed) (trace (main_parsed parsed)) ->
  subcommand_handler m parsed = Raises e ->
  isinstance e Exception = true ->
  verbose parsed = false ->
  visible parsed (trace (main_parsed parsed)) =
    version_record
      :: (if isinstance e NotImplementedError
          then [ not_supported_marker;
                 mkLogRecord INFO not_supported_note None;
                 mkLogRecord INFO not_supported_see None ]
          else [ exception_record e ])
      ++ (if update_checking_result then [] else [hint_record]).
Proof.
  intros parsed m e Hcall Hraise He Hquiet.
  rewrite (main_parsed_raised _ _ _ Hcall Hraise).
  unfold after_call, classify. rewrite He.
  unfold visible, configured_level, prologue, configured_level.
  rewrite Hquiet.
  destruct (isinstance e NotImplementedError); cbn [trace fst];
    unfold not_supported_trace, unhandled_trace, hint_if_outdated;
    destruct update_checking_result; reflexivity.
Qed.

(** ** From the command line *)



End Main.

(** ** The answer of the update checker *)

(** X12. The answer of the update checker changes neither how a run ends
    nor what it does, except for one thing: the run with the answer "not
    current" is the run with the answer "current", followed, on the failure
    paths, by the hint. *)
Theorem X12_update_answer_only_adds_hint :
  forall (tool api HINT : string) (format_exc : exn -> string)
         (str_Namespace : Namespace -> string)
         (handler : subcommand_module -> Namespace -> handler_result)
         (parsed : Namespace),
  outcome (main_parsed tool api HINT format_exc str_Namespace false handler parsed) =
  outcome (main_parsed tool api HINT format_exc str_Namespace true handler parsed) /\
  (trace (main_parsed tool api HINT format_exc str_Namespace false handler parsed) =
   trace (main_parsed tool api HINT format_exc str_Namespace true handler parsed) \/
   trace (main_parsed tool api HINT format_exc str_Namespace false handler parsed) =
   trace (main_parsed tool api HINT format_exc str_Namespace true handler parsed)
     ++ [Log (hint_record HINT)]).
Proof.
  intros tool api HINT format_exc str_Namespace handler parsed.
  rewrite !main_parsed_cases.
  destruct (outcome (run_program tool api str_Namespace handler parsed))
    as [a | e].
  - split; [reflexivity | left; reflexivity].
  - destruct (classify e) as [[|]|].
    + split; [reflexivity |]. right. cbn [trace fst].
      unfold not_supported_trace, hint_if_outdated.
      rewrite !app_nil_r, <- !app_assoc. reflexivity.
    + split; [reflexivity |]. right. cbn [trace fst].
      unfold unhandled_trace, hint_if_outdated.
      rewrite !app_nil_r, <- !app_assoc. reflexivity.
    + split; [reflexivity | left; reflexivity].
Qed.

(** ** The properties at sample runs *)

Local Abbreviation sample_main h :=
  (main_parsed "11.5.1" "10.10.0" "[HINT] "
               sample_format_exc sample_str_Namespace false h).

Lemma C1_witness :
  trace (dispatch returning (sample_args (Some "dl") false)) =
  [Call subcommand_download (sample_args (Some "dl") false)].
Proof.
  refine (proj1 (proj2
    (C1_alias_dispatch "11.5.1" "10.10.0" "[HINT] "
       sample_format_exc sample_str_Namespace false returning
       "download" ["d"; "dl"] subcommand_download "dl"
       (sample_args (Some "dl") false) _ _ _))).
  - simpl. auto.
  - simpl. auto.
  - reflexivity.
Defined.

(** C2, as the specification words it, fails: with the version flag set the
    update checker is queried all the same. *)
Lemma C2_counterexample :
  version (sample_args None true) = true /\
  In UpdateCheck (trace (sample_main returning (sample_args None true))).
Proof.
  split; [reflexivity |]. simpl. auto.
Qed.

Lemma C2_witness :
  trace (sample_main returning (sample_args (Some "submit") true)) =
  [ BasicConfig INFO [StreamHandler stdout];
    UpdateCheck;
    Print "online-judge-tools 11.5.1 (+ online-judge-api-client 10.10.0)" ].
Proof.
  refine (proj1
    (C2_version_after_update_check "11.5.1" "10.10.0" "[HINT] "
       sample_format_exc sample_str_Namespace false returning
       (sample_args (Some "submit") true) _)).
  reflexivity.
Defined.

Lemma C3_witness :
  outcome (sample_main (raising boom) (sample_args (Some "download") true)) =
  inr (SystemExit 0).
Proof.
  refine (proj1 (proj2
    (C3_version_flag "11.5.1" "10.10.0" "[HINT] "
       sample_format_exc sample_str_Namespace false (raising boom)
       (sample_args (Some "download") true) _))).
  reflexivity.
Defined.

Lemma C4_witness :
  exists r : LogRecord,
    In (Log r) (trace (sample_main (raising boom) (sample_args (Some "t") false))) /\
    rec_level r = ERROR /\
    contains (rec_message r) "boom" = true /\
    isEnabledFor INFO r = true.
Proof.
  refine (proj1 (proj2 (proj2
    (C4_unhandled_failure "11.5.1" "10.10.0" "[HINT] "
       sample_format_exc sample_str_Namespace false (raising boom)
       (sample_args (Some "t") false) subcommand_test boom _ _ _ _)))).
  - simpl. auto 10.
  - reflexivity.
  - reflexivity.
  - reflexivity.
Defined.

Lemma C5_witness :
  In (Log (mkLogRecord ERROR "NotImplementedError" None))
     (trace (sample_main (raising not_supported) (sample_args (Some "g/i") false))).
Proof.
  refine (proj1 (proj2 (proj2 (proj2
    (C5_not_supported_failure "11.5.1" "10.10.0" "[HINT] "
       sample_format_exc sample_str_Namespace false (raising not_supported)
       (sample_args (Some "g/i") false) subcommand_generate_input
       not_supported _ _ _))))).
  - simpl. auto 10.
  - reflexivity.
  - reflexivity.
Defined.

(** C6, as the specification words it, fails: without a subcommand token but
    with the version flag, no help is printed and the run leaves with 0. *)
Lemma C6_counterexample :
  subcommand (sample_args None true) = None /\
  sample_main returning (sample_args None true) =
  ([ BasicConfig INFO [StreamHandler stdout];
     UpdateCheck;
     Print "online-judge-tools 11.5.1 (+ online-judge-api-client 10.10.0)" ],
   inr (SystemExit 0)).
Proof.
  split; reflexivity.
Qed.

Lemma C6_witness :
  outcome (sample_main returning (sample_args (Some "upload") false)) =
  inr (SystemExit 1).
Proof.
  refine (proj1 (proj2
    (C6_help_without_subcommand "11.5.1" "10.10.0" "[HINT] "
       sample_format_exc sample_str_Namespace false returning
       (sample_args (Some "upload") false) _ _))).
  - reflexivity.
  - right. exists "upload". split; [reflexivity |].
    intros canonical aliases m Hentry Hin. simpl in Hentry.
    repeat (destruct Hentry as [Hentry | Hentry];
            [ injection Hentry as <- <- <-; simpl in Hin;
              repeat (destruct Hin as [Hin | Hin]; [discriminate Hin |]);
              destruct Hin
            | ]).
    destruct Hentry.
Defined.

Lemma C7_witness :
  cookie (parse_args (get_parser "/home/user/.local/share/online-judge-tools/cookie.jar")
                     (mkCommandLine [use_verbose] (Some "d") [])) =
  "/home/user/.local/share/online-judge-tools/cookie.jar".
Proof.
  refine (proj2 (proj2
    (C7_logging_and_cookie_default "11.5.1" "10.10.0" "[HINT] "
       "/home/user/.local/share/online-judge-tools/cookie.jar"
       sample_format_exc sample_str_Namespace false returning
       (sample_args None false)
       (mkCommandLine [use_verbose] (Some "d") []))) _).
  reflexivity.
Defined.

Lemma C8_witness :
  outcome (sample_main returning (sample_args None false)) =
  inr (SystemExit 1).
Proof.
  refine (proj1
    (C8_exit_passes_except_clauses "11.5.1" "10.10.0" "[HINT] "
       sample_format_exc sample_str_Namespace false returning
       (sample_args None false) _)).
  right. reflexivity.
Defined.

Lemma C9_witness :
  isinstance not_supported Exception = true /\
  classify not_supported = Some NotSupported.
Proof.
  destruct
    (C9_not_supported_first "11.5.1" "10.10.0" "[HINT] "
       sample_format_exc sample_str_Namespace false (raising not_supported)
       not_supported eq_refl) as [H1 [H2 _]].
  exact (conj H1 H2).
Defined.

Lemma C10_witness :
  exists (before after : list event) (r : LogRecord),
    trace (sample_main returning (sample_args (Some "login") false)) =
      before ++ Log r :: after /\
    calls before = [] /\
    rec_level r = INFO /\
    contains (rec_message r) "11.5.1" = true /\
    contains (rec_message r) "10.10.0" = true /\
    isEnabledFor INFO r = true.
Proof.
  refine
    (C10_version_logged_before_call "11.5.1" "10.10.0" "[HINT] "
       sample_format_exc sample_str_Namespace false returning
       (sample_args (Some "login") false) _).
  reflexivity.
Defined.

Lemma X1_witness :
  outcome (sample_main returning (sample_args (Some "l") false)) = inl tt.
Proof.
  refine (proj1
    (X1_subcommand_returns "11.5.1" "10.10.0" "[HINT] "
       sample_format_exc sample_str_Namespace false returning
       (sample_args (Some "l") false) subcommand_login _ _)).
  - simpl. auto 10.
  - reflexivity.
Defined.

Lemma X2_witness :
  outcome (sample_main (raising (SystemExit 3)) (sample_args (Some "dl") false)) =
  inr (SystemExit 3).
Proof.
  refine (proj1
    (X2_non_exception_passes "11.5.1" "10.10.0" "[HINT] "
       sample_format_exc sample_str_Namespace false (raising (SystemExit 3))
       (sample_args (Some "dl") false) subcommand_download (SystemExit 3)
       _ _ _)).
  - simpl. auto 10.
  - reflexivity.
  - reflexivity.
Defined.


Lemma X4_witness :
  calls (trace (sample_main returning (sample_args (Some "s") false))) =
  [subcommand_submit].
Proof.
  refine (proj2 (proj2 (proj2
    (X4_call_only_by_name "11.5.1" "10.10.0" "[HINT] "
       sample_format_exc sample_str_Namespace false returning
       (sample_args (Some "s") false) (sample_args (Some "s") false)
       subcommand_submit _)))).
  simpl. auto 10.
Defined.


Lemma X8_witness :
  exists before : list event,
    trace (sample_main (raising boom) (sample_args (Some "g/o") false)) =
    before ++ [Log (hint_record "[HINT] ")].
Proof.
  refine (proj2 (proj2
    (X8_hint_only_after_failure "11.5.1" "10.10.0" "[HINT] "
       sample_format_exc sample_str_Namespace false (raising boom)
       (sample_args (Some "g/o") false) _))).
  simpl. auto 12.
Defined.

Lemma X10_witness :
  visible (sample_args (Some "t") false)
          (trace (sample_main (raising boom) (sample_args (Some "t") false))) =
  [ mkLogRecord INFO
      "online-judge-tools 11.5.1 (+ online-judge-api-client 10.10.0)" None;
    mkLogRecord ERROR "boom" (Some boom);
    mkLogRecord INFO
      "[HINT] try updating the version of online-judge-tools: $ pip3 install -U online-judge-tools online-judge-api-client"
      None ].
Proof.
  refine
    (X10_quiet_failure_output "11.5.1" "10.10.0" "[HINT] "
       sample_format_exc sample_str_Namespace false (raising boom)
       (sample_args (Some "t") false) subcommand_test boom _ _ _ _).
  - simpl. auto 10.
  - reflexivity.
  - reflexivity.
  - reflexivity.
Defined.

